(** * Intra UDP flow manager and tunnel wiring

    A shallow embedding of [tunnel/intra/udp.go] (the UDP connection
    handler with DNS redirection) and of the configuration surface of
    [tunnel/intra.go].

    The handler is stateful and concurrent.  The embedding threads an
    explicit machine state through every operation:
    - the handler's own fields (the Go struct [udpHandler]);
    - a heap of trackers, because the flow table stores [*tracker] and the
      read task keeps its own pointer to the same object;
    - the goroutines started by the handler (one read task per Connect,
      one task per DNS-over-HTTPS query);
    - the log of effects on the outside world (sockets, the virtual
      interface, the listener, the logger), oldest first.

    Everything the outside world decides (what a socket read returns,
    whether a write succeeds, what the clock shows) is an argument of the
    operation that observes it.  Every operation runs as one atomic step;
    the mutex of the handler is therefore not represented. *)

From Stdlib Require Import ZArith Lia Bool String Ascii.
From Stdlib.Strings Require Import Byte.
From stdpp Require Import base option list gmap.

Local Open Scope Z_scope.

(** ** Machine integers *)

Module Int.

Definition wrap_signed (w z : Z) : Z := (z + 2 ^ (w - 1)) mod 2 ^ w - 2 ^ (w - 1).

(** Conversion to / arithmetic in [int64], [int32], [uint16]. *)
Definition int64 (z : Z) : Z := wrap_signed 64 z.
Definition int32 (z : Z) : Z := wrap_signed 32 z.
Definition uint16 (z : Z) : Z := z mod 2 ^ 16.

Definition max_int64 : Z := 2 ^ 63 - 1.
Definition min_int64 : Z := - 2 ^ 63.

Definition in_int64 (z : Z) : Prop := min_int64 <= z <= max_int64.

End Int.

(** ** Bytes and addresses *)

Definition bytes := list byte.

Definition byte_val (b : byte) : Z := Z.of_N (Byte.to_N b).

(** [len(data)] as a Go [int]. *)
Definition len (data : bytes) : Z := Z.of_nat (length data).

Fixpoint bytes_eqb (a b : bytes) : bool :=
  match a, b with
  | [], [] => true
  | x :: a', y :: b' => Byte.eqb x y && bytes_eqb a' b'
  | _, _ => false
  end.

(** [net.UDPAddr]. *)
Record UDPAddr := mkUDPAddr {
  IP : bytes;
  Port : Z;
  Zone : string
}.

Definition IPv4len : nat := 4.
Definition IPv6len : nat := 16.

Definition v4InV6Prefix : bytes :=
  [x00; x00; x00; x00; x00; x00; x00; x00; x00; x00; xff; xff].

(** [net.IP.Equal]: an IPv4 address and its IPv4-in-IPv6 form are equal. *)
Definition IP_Equal (ip x : bytes) : bool :=
  if Nat.eqb (length ip) (length x) then bytes_eqb ip x
  else if Nat.eqb (length ip) IPv4len && Nat.eqb (length x) IPv6len then
    bytes_eqb (take 12 x) v4InV6Prefix && bytes_eqb ip (drop 12 x)
  else if Nat.eqb (length ip) IPv6len && Nat.eqb (length x) IPv4len then
    bytes_eqb (take 12 ip) v4InV6Prefix && bytes_eqb (drop 12 ip) x
  else false.

(** The test [a.IP.Equal(b.IP) && a.Port == b.Port] that the handler uses
    to classify a datagram.  The zone is not compared. *)
Definition sameAddr (a b : UDPAddr) : bool :=
  IP_Equal (IP a) (IP b) && (Port a =? Port b).

(** ** Time *)

Module time.

Definition Nanosecond : Z := 1.
Definition Microsecond : Z := 1000 * Nanosecond.
Definition Millisecond : Z := 1000 * Microsecond.
Definition Second : Z := 1000 * Millisecond.
Definition Minute : Z := 60 * Second.
Definition Hour : Z := 60 * Minute.

(** [time.Since(start)] read when the clock shows [now]: a
    [time.Duration], an [int64] count of nanoseconds, saturating. *)
Definition Since (start now : Z) : Z :=
  Z.max Int.min_int64 (Z.min Int.max_int64 (now - start)).

(** The longest elapsed time, in seconds, for which the value computed
    below is exact. *)
Definition exact_seconds : Z := 2 ^ 24.

Section Duration.

(** [int32(d.Seconds())].  [Seconds] returns a [float64] and the
    conversion truncates it toward zero.  For [0 <= d] below
    [exact_seconds] seconds the float64 sum (whole seconds plus
    nanoseconds / 1e9) is not rounded up to the next integer, and the result
    is the integer quotient.  Outside that range the value depends on
    float64 rounding and, past the [int32] range, on the platform: it is
    left to [far]. *)
Variable far : Z -> Z.

Definition SecondsInt32 (d : Z) : Z :=
  if (0 <=? d) && (d <? exact_seconds * Second) then Z.quot d Second
  else far d.

End Duration.

(** [time.ParseDuration], for the strings made of unsigned whole-number
    components with ASCII units ("2h4m", "90s"): each component is a
    decimal number followed by a unit.  Signs, fractions and the unit
    written with a micro sign are outside this model ([None], as for the
    strings the library rejects). *)
Definition unit_of (u : string) : option Z :=
  if String.eqb u "ns" then Some Nanosecond
  else if String.eqb u "us" then Some Microsecond
  else if String.eqb u "ms" then Some Millisecond
  else if String.eqb u "s" then Some Second
  else if String.eqb u "m" then Some Minute
  else if String.eqb u "h" then Some Hour
  else None.

Definition digit_of (c : ascii) : option Z :=
  let n := Z.of_nat (nat_of_ascii c) in
  if (48 <=? n) && (n <=? 57) then Some (n - 48) else None.

Definition is_unit_char (c : ascii) : bool :=
  let n := Z.of_nat (nat_of_ascii c) in (97 <=? n) && (n <=? 122).

(** One more digit of a number ([leadingInt]); [None] on overflow. *)
Definition push_digit (x d : Z) : option Z :=
  if x >? 2 ^ 63 / 10 then None
  else if 10 * x + d >? 2 ^ 63 then None
  else Some (10 * x + d).

(** Close the component [num u] and add it to [total]; [None] for a
    missing number, an unknown unit or an overflow. *)
Definition add_component (total : Z) (num : option Z) (u : string) : option Z :=
  match num, unit_of u with
  | Some v, Some f =>
      if v >? 2 ^ 63 / f then None
      else if total + v * f >? 2 ^ 63 then None
      else Some (total + v * f)
  | _, _ => None
  end.

(** [num] is the number being read ([None] before its first digit), [u]
    the unit being read (empty while the number is read). *)
Fixpoint parse_components (s : string) (total : Z) (num : option Z) (u : string)
  : option Z :=
  match s with
  | EmptyString => add_component total num u
  | String c rest =>
      match digit_of c with
      | Some d =>
          if String.eqb u EmptyString then
            match push_digit (default 0 num) d with
            | Some x => parse_components rest total (Some x) EmptyString
            | None => None
            end
          else
            match add_component total num u with
            | Some total' => parse_components rest total' (Some d) EmptyString
            | None => None
            end
      | None =>
          if is_unit_char c && bool_decide (is_Some num) then
            parse_components rest total num (String.append u (String c EmptyString))
          else None
      end
  end.

Definition ParseDuration (s : string) : option Z :=
  if String.eqb s "0" then Some 0
  else
    match parse_components s 0 None EmptyString with
    | Some d => if d >? Int.max_int64 then None else Some d
    | None => None
    end.

End time.

(** ** The UDP handler: data *)

(** A flow handle ([core.UDPConn]) is opaque; so are a real socket
    ([*net.UDPConn]), a DNS transport and a tracker's heap address. *)
Abbreviation handle := nat.
Abbreviation sock := nat.
Abbreviation loc := nat.
Abbreviation DNSTransport := nat.

(** [UDPSocketSummary]. *)
Record UDPSocketSummary := mkSummary {
  UploadBytes : Z;
  DownloadBytes : Z;
  Duration : Z
}.

(** [tracker]. *)
Record tracker := mkTracker {
  conn : sock;
  start : Z;
  upload : Z;
  download : Z;
  complex : bool;
  queryid_of : Z
}.

Definition makeTracker (pc : sock) (now : Z) : tracker :=
  mkTracker pc now 0 0 false 0.

Definition set_complex (b : bool) (t : tracker) : tracker :=
  mkTracker (conn t) (start t) (upload t) (download t) b (queryid_of t).
Definition set_queryid (q : Z) (t : tracker) : tracker :=
  mkTracker (conn t) (start t) (upload t) (download t) (complex t) q.
Definition set_upload (u : Z) (t : tracker) : tracker :=
  mkTracker (conn t) (start t) u (download t) (complex t) (queryid_of t).
Definition set_download (d : Z) (t : tracker) : tracker :=
  mkTracker (conn t) (start t) (upload t) d (complex t) (queryid_of t).

(** [udpHandler] (the listener is the outside world: its calls are
    effects). *)
Record udpHandler := mkHandler {
  timeout : Z;
  udpConns : gmap handle loc;
  fakedns : UDPAddr;
  truedns : UDPAddr;
  dns : option DNSTransport
}.

Definition NewUDPHandler (fake true_ : UDPAddr) (d : option DNSTransport)
    (tmo : Z) : udpHandler :=
  mkHandler tmo ∅ fake true_ d.

Definition queryid (data : bytes) : Z :=
  if len data <? 2 then -1
  else Z.land 65535
         (Z.lor (Int.int32 (Z.shiftl (Int.int32 (byte_val (nth 0 data x00))) 8))
                (Int.int32 (byte_val (nth 1 data x00)))).

(** ** Effects, goroutines, machine state *)

Inductive logline :=
  | Errorf_bind                      (* "failed to bind udp address" *)
  | Infof_new_proxy (target : UDPAddr) (* "new proxy connection for target" *)
  | Warnf_tun_write                  (* "failed to write UDP data to TUN" *)
  | Warnf_forward.                   (* "failed to forward UDP payload" *)

Inductive effect :=
  | ListenUDP (network : string) (bindAddr : UDPAddr)
  | SockSetDeadline (s : sock) (deadline : Z)
  | SockReadFrom (s : sock)
  | SockWriteTo (s : sock) (data : bytes) (addr : UDPAddr)
  | SockClose (s : sock)
  | TunWriteFrom (c : handle) (data : bytes) (src : UDPAddr)
  | TunClose (c : handle)
  | OnUDPSocketClosed (sm : UDPSocketSummary)
  | Query (d : DNSTransport) (q : bytes)
  | Log (l : logline).

(** The read task [fetchUDPInput conn t]: in its loop, past its loop with
    the deferred call still to run, or gone. *)
Inductive rstatus := Looping | Returning | Finished.

Record reader := mkReader {
  rconn : handle;
  rtrk : loc;
  rstat : rstatus
}.

(** The task [doDoh conn data]. *)
Record dohtask := mkDoh {
  dconn : handle;
  ddata : bytes;
  ddone : bool
}.

Record state := mkState {
  hdl : udpHandler;
  heap : list tracker;
  readers : list reader;
  dohs : list dohtask;
  trace : list effect
}.

Definition initial (h : udpHandler) : state := mkState h [] [] [] [].

Definition emit (e : effect) (s : state) : state :=
  mkState (hdl s) (heap s) (readers s) (dohs s) (trace s ++ [e]).

Definition with_conns (f : gmap handle loc -> gmap handle loc) (s : state) : state :=
  mkState (mkHandler (timeout (hdl s)) (f (udpConns (hdl s))) (fakedns (hdl s))
             (truedns (hdl s)) (dns (hdl s)))
          (heap s) (readers s) (dohs s) (trace s).

Definition with_dns (d : option DNSTransport) (s : state) : state :=
  mkState (mkHandler (timeout (hdl s)) (udpConns (hdl s)) (fakedns (hdl s))
             (truedns (hdl s)) d)
          (heap s) (readers s) (dohs s) (trace s).

Definition with_heap (f : list tracker -> list tracker) (s : state) : state :=
  mkState (hdl s) (f (heap s)) (readers s) (dohs s) (trace s).

Definition with_readers (f : list reader -> list reader) (s : state) : state :=
  mkState (hdl s) (heap s) (f (readers s)) (dohs s) (trace s).

Definition with_dohs (f : list dohtask -> list dohtask) (s : state) : state :=
  mkState (hdl s) (heap s) (readers s) (f (dohs s)) (trace s).

(** [*l = t]. *)
Definition store (l : loc) (t : tracker) : state -> state :=
  with_heap (fun hp => <[l := t]> hp).

Definition set_rstat (r : nat) (st : rstatus) : state -> state :=
  with_readers (alter (fun rd => mkReader (rconn rd) (rtrk rd) st) r).

(** ** Results *)

Inductive error :=
  | ErrListen (msg : string)                  (* the error of net.ListenUDP *)
  | ErrNotExists (c : handle) (addr : UDPAddr) (* "connection %v->%v does not exists" *)
  | ErrWrite.                                 (* "failed to write UDP data" *)

(** What a call returns: [nil], an error, or a nil-pointer panic.  The
    panic stands for a table entry without a tracker behind it, which no
    run from [initial] produces (see [wf_step]). *)
Inductive result := Nil | Err (e : error) | Panic.

(** What [net.ListenUDP] answers. *)
Inductive listened := Bound (pc : sock) | NotBound (msg : string).

(** What [ReadFrom] answers into the buffer [buf]: an error (also on
    deadline), or [n = len data] bytes [data] from [from]; [rest] is what
    the buffer holds after them. *)
Inductive received := RecvErr | Recv (data rest : bytes) (from : UDPAddr).

(** ** The UDP handler: operations *)

Section Handler.

(** The platform's [int32(float64)] outside the exact range, see
    [time.SecondsInt32]. *)
Variable far : Z -> Z.

(** [h.Close(conn)].  [now] is the clock read by [time.Since]. *)
Definition Close (c : handle) (now : Z) (s : state) : state :=
  let s := emit (TunClose c) s in
  match udpConns (hdl s) !! c with
  | Some l =>
      match heap s !! l with
      | Some t =>
          let s := emit (SockClose (conn t)) s in
          let duration := time.SecondsInt32 far (time.Since (start t) now) in
          let s := emit (OnUDPSocketClosed
                           (mkSummary (upload t) (download t) duration)) s in
          with_conns (delete c) s
      | None => s
      end
  | None => s
  end.

(** The classification of a received datagram in the loop of
    [fetchUDPInput]: the source address shown to the virtual interface and
    the tracker after the update of [complex] and [download]. *)
Definition classify_input (h : udpHandler) (t : tracker) (data rest : bytes)
    (from : UDPAddr) : UDPAddr * tracker :=
  let n := len data in
  let buf := (data ++ rest)%list in
  let (udpaddr, t) :=
    if sameAddr from (truedns h) then
      (fakedns h,
       if n <? 2 then set_complex true t
       else
         let responseid := queryid buf in
         if negb (queryid_of t =? Int.uint16 responseid) then set_complex true t
         else t)
    else (from, set_complex true t) in
  (udpaddr, set_download (Int.int64 (download t + n)) t).

(** One iteration of the loop of [fetchUDPInput], for the read task [r].
    [None]: the task is not in its loop, the step cannot happen. *)
Definition fetchUDPInput_iter (r : nat) (now : Z) (rx : received) (tun_ok : bool)
    (s : state) : option state :=
  match readers s !! r with
  | Some (mkReader c l Looping) =>
      match heap s !! l with
      | Some t =>
          let s := emit (SockSetDeadline (conn t) (now + timeout (hdl s))) s in
          let s := emit (SockReadFrom (conn t)) s in
          match rx with
          | RecvErr => Some (set_rstat r Returning s)
          | Recv data rest from =>
              let (udpaddr, t) := classify_input (hdl s) t data rest from in
              let s := store l t s in
              let s := emit (TunWriteFrom c data udpaddr) s in
              if negb tun_ok then
                Some (set_rstat r Returning (emit (Log Warnf_tun_write) s))
              else if negb (complex t) then Some (set_rstat r Returning s)
              else Some s
          end
      | None => None
      end
  | _ => None
  end.

(** The deferred function of [fetchUDPInput]: [h.Close(conn)], then the
    buffer is given back. *)
Definition fetchUDPInput_defer (r : nat) (now : Z) (s : state) : option state :=
  match readers s !! r with
  | Some (mkReader c l Returning) => Some (set_rstat r Finished (Close c now s))
  | _ => None
  end.

Definition Connect (c : handle) (target : UDPAddr) (bind : listened) (now : Z)
    (s : state) : result * state :=
  let bindAddr := mkUDPAddr [] 0 EmptyString in
  let s := emit (ListenUDP "udp" bindAddr) s in
  match bind with
  | NotBound msg => (Err (ErrListen msg), emit (Log Errorf_bind) s)
  | Bound pc =>
      let t := makeTracker pc now in
      let l := length (heap s) in
      let s := with_heap (fun hp => (hp ++ [t])%list) s in
      let s := with_conns (fun m => <[c := l]> m) s in
      let s := with_readers (fun rs => (rs ++ [mkReader c l Looping])%list) s in
      (Nil, emit (Log (Infof_new_proxy target)) s)
  end.

(** [doDoh], run by the task [d].  [answer] is what the transport's
    [Query] returns: the response, or [None] for an error.  [None] as a
    result: the task is not pending, or there is no transport to call. *)
Definition doDoh (d : nat) (answer : option bytes) (s : state) : option state :=
  match dohs s !! d with
  | Some (mkDoh c data false) =>
      match dns (hdl s) with
      | Some tr =>
          let s := with_dohs (fun ds => <[d := mkDoh c data true]> ds) s in
          let s := emit (Query tr data) s in
          match answer with
          | Some resp => Some (emit (TunWriteFrom c resp (fakedns (hdl s))) s)
          | None => Some s
          end
      | None => None
      end
  | _ => None
  end.

(** The update of the tracker in [ReceiveTo] for a query sent to the fake
    DNS address when no transport is set. *)
Definition track_query (data : bytes) (t : tracker) : tracker :=
  let id := queryid data in
  if id <? 0 then set_complex true t
  else if upload t =? 0 then set_queryid (Int.uint16 id) t
  else if negb (queryid_of t =? Int.uint16 id) then set_complex true t
  else t.

Definition ReceiveTo (c : handle) (data : bytes) (addr : UDPAddr) (wr_ok : bool)
    (s : state) : result * state :=
  match udpConns (hdl s) !! c with
  | None => (Err (ErrNotExists c addr), s)
  | Some l =>
      match heap s !! l with
      | None => (Panic, s)
      | Some t =>
          let '(addr, t, s) :=
            if sameAddr addr (fakedns (hdl s)) then
              match dns (hdl s) with
              | Some _ =>
                  (* Use DOH. *)
                  let dataCopy := ([] ++ data)%list in
                  (addr, t,
                   with_dohs (fun ds => (ds ++ [mkDoh c dataCopy false])%list) s)
              | None =>
                  (* Send the query to the real DNS server. *)
                  (truedns (hdl s), track_query data t, s)
              end
            else (addr, set_complex true t, s) in
          let t := set_upload (Int.int64 (upload t + len data)) t in
          let s := store l t s in
          let s := emit (SockWriteTo (conn t) data addr) s in
          if negb wr_ok then (Err ErrWrite, emit (Log Warnf_forward) s)
          else (Nil, s)
      end
  end.

(** Modelled from the spec: [SetDNS] of the UDP handler.  The tunnel calls
    [t.udp.SetDNS(dns)] and [udp.go] has no such method; the handler
    "exposes DNS-transport assignment", which stores the transport in the
    handler's [dns]. *)
Definition udp_SetDNS (d : option DNSTransport) (s : state) : state :=
  with_dns d s.

End Handler.

(** ** The machine: one step per call or per goroutine move *)

Inductive input :=
  | IConnect (c : handle) (target : UDPAddr) (bind : listened) (now : Z)
  | IReceiveTo (c : handle) (data : bytes) (addr : UDPAddr) (wr_ok : bool)
  | IClose (c : handle) (now : Z)
  | IRead (r : nat) (now : Z) (rx : received) (tun_ok : bool)
  | IDefer (r : nat) (now : Z)
  | IDoh (d : nat) (answer : option bytes)
  | ISetDNS (d : option DNSTransport).

Section Machine.

Variable far : Z -> Z.

(** [None]: the move is not possible in [s] (a goroutine that is not at
    that point). *)
Definition step (i : input) (s : state) : option state :=
  match i with
  | IConnect c target bind now => Some (snd (Connect c target bind now s))
  | IReceiveTo c data addr wr_ok => Some (snd (ReceiveTo c data addr wr_ok s))
  | IClose c now => Some (Close far c now s)
  | IRead r now rx tun_ok => fetchUDPInput_iter r now rx tun_ok s
  | IDefer r now => fetchUDPInput_defer far r now s
  | IDoh d answer => doDoh d answer s
  | ISetDNS d => Some (udp_SetDNS d s)
  end.

Fixpoint run (ins : list input) (s : state) : option state :=
  match ins with
  | [] => Some s
  | i :: ins' =>
      match step i s with
      | Some s' => run ins' s'
      | None => None
      end
  end.

End Machine.

(** Every table entry and every read task points into the heap. *)
Definition wf (s : state) : Prop :=
  (∀ c l, udpConns (hdl s) !! c = Some l → is_Some (heap s !! l)) ∧
  (∀ r rd, readers s !! r = Some rd → is_Some (heap s !! rtrk rd)).

(** [t'] is a later value of the tracker [t]: same socket, same start,
    and [complex] has not gone back to false. *)
Definition later (t t' : tracker) : Prop :=
  conn t' = conn t ∧ start t' = start t ∧ (complex t = true → complex t' = true).

(** Every tracker of [hp] is in [hp'], at the same address, as a later
    value. *)
Definition grows (hp hp' : list tracker) : Prop :=
  ∀ l t, hp !! l = Some t → ∃ t', hp' !! l = Some t' ∧ later t t'.

(** ** The tunnel ([tunnel/intra.go]) *)

(** [net.TCPAddr]. *)
Record TCPAddr := mkTCPAddr {
  tcpIP : bytes;
  tcpPort : Z;
  tcpZone : string
}.

(** Modelled from the spec: the TCP handler is not among the sources.  The
    tunnel uses its configuration surface only: "DNS transport assignment,
    a boolean always-split-HTTPS policy". *)
Record TCPHandler := mkTCP {
  tcp_fakedns : TCPAddr;
  tcp_truedns : TCPAddr;
  tcp_dns : option DNSTransport;
  tcp_alwaysSplitHTTPS : bool
}.

(** Modelled from the spec: [NewTCPHandler] and the two setters of the TCP
    handler, which are not among the sources. *)
Definition NewTCPHandler (fake true_ : TCPAddr) : TCPHandler :=
  mkTCP fake true_ None false.
Definition tcp_SetDNS (d : option DNSTransport) (h : TCPHandler) : TCPHandler :=
  mkTCP (tcp_fakedns h) (tcp_truedns h) d (tcp_alwaysSplitHTTPS h).
Definition tcp_SetAlwaysSplitHTTPS (b : bool) (h : TCPHandler) : TCPHandler :=
  mkTCP (tcp_fakedns h) (tcp_truedns h) (tcp_dns h) b.

(** [intratunnel], without the embedded network stack.  The two handlers
    are nil until [registerConnectionHandlers] sets them. *)
Record intratunnel := mkTunnel {
  tcp : option TCPHandler;
  udp : option state;
  tdns : option DNSTransport
}.

Section Tunnel.

(** [net.ResolveUDPAddr "udp"] and [net.ResolveTCPAddr "tcp"]: the
    address, or the error message. *)
Variable ResolveUDPAddr : string -> UDPAddr + string.
Variable ResolveTCPAddr : string -> TCPAddr + string.

(** [registerConnectionHandlers]: the handlers set so far and the error,
    if any.  The call site passes no transport to [NewUDPHandler]: the
    handler starts without one. *)
Definition registerConnectionHandlers (fakedns udpdns tcpdns : string)
    (t : intratunnel) : intratunnel * option string :=
  (* RFC 5382 REQ-5 requires a timeout no shorter than 2 hours and 4 minutes. *)
  let timeout := default 0 (time.ParseDuration "2h4m") in
  match ResolveUDPAddr fakedns with
  | inr err => (t, Some err)
  | inl udpfakedns =>
      match ResolveUDPAddr udpdns with
      | inr err => (t, Some err)
      | inl udptruedns =>
          let t := mkTunnel (tcp t)
                     (Some (initial (NewUDPHandler udpfakedns udptruedns None timeout)))
                     (tdns t) in
          match ResolveTCPAddr fakedns with
          | inr err => (t, Some err)
          | inl tcpfakedns =>
              match ResolveTCPAddr tcpdns with
              | inr err => (t, Some err)
              | inl tcptruedns =>
                  (mkTunnel (Some (NewTCPHandler tcpfakedns tcptruedns))
                     (udp t) (tdns t), None)
              end
          end
      end
  end.

End Tunnel.

(** [intratunnel.SetDNS].  [None]: a handler is nil and the call panics. *)
Definition SetDNS (d : option DNSTransport) (t : intratunnel) : option intratunnel :=
  let t := mkTunnel (tcp t) (udp t) d in
  match udp t with
  | None => None
  | Some u =>
      let t := mkTunnel (tcp t) (Some (udp_SetDNS d u)) (tdns t) in
      match tcp t with
      | None => None
      | Some h => Some (mkTunnel (Some (tcp_SetDNS d h)) (udp t) (tdns t))
      end
  end.

Definition GetDNS (t : intratunnel) : option DNSTransport := tdns t.

Definition SetAlwaysSplitHTTPS (b : bool) (t : intratunnel) : option intratunnel :=
  match tcp t with
  | None => None
  | Some h => Some (mkTunnel (Some (tcp_SetAlwaysSplitHTTPS b h)) (udp t) (tdns t))
  end.

(** ** Observations on a log of effects *)

Definition summaries (tr : list effect) : list UDPSocketSummary :=
  omap (fun e => match e with OnUDPSocketClosed sm => Some sm | _ => None end) tr.

Definition sock_closes (tr : list effect) : list sock :=
  omap (fun e => match e with SockClose k => Some k | _ => None end) tr.

Definition tun_closes (tr : list effect) : list handle :=
  omap (fun e => match e with TunClose c => Some c | _ => None end) tr.

Definition sock_writes (tr : list effect) : list (sock * bytes * UDPAddr) :=
  omap (fun e => match e with SockWriteTo k d a => Some (k, d, a) | _ => None end) tr.

Definition is_log (e : effect) : bool :=
  match e with Log _ => true | _ => false end.

(** The effects other than lines of the log. *)
Definition without_log (tr : list effect) : list effect :=
  filter (fun e => is_log e = false) tr.

(** The tracker a handle is bound to. *)
Definition tracker_of (s : state) (c : handle) : option tracker :=
  udpConns (hdl s) !! c ≫= fun l => heap s !! l.




(** ** A sample configuration *)

Module Sample.

Definition fake : UDPAddr := mkUDPAddr [x0a; x6f; xde; x03] 53 EmptyString.
Definition real : UDPAddr := mkUDPAddr [x7f; x00; x00; x01] 5353 EmptyString.
Definition web : UDPAddr := mkUDPAddr [x5d; xb8; xd8; x22] 443 EmptyString.

(** A 12-byte DNS query with id 0x1234, and a 28-byte response to it. *)
Definition query : bytes :=
  [x12; x34; x01; x00; x00; x01; x00; x00; x00; x00; x00; x00].
Definition response : bytes :=
  ([x12; x34; x81; x80; x00; x01; x00; x01; x00; x00; x00; x00]
   ++ [x00; x00; x01; x00; x01; xc0; x0c; x00; x01; x00; x01; x00]
   ++ [x00; x00; x3c; x00])%list.

Definition two_hours_four : Z := 2 * time.Hour + 4 * time.Minute.

(** The handler without and with a DNS transport. *)
Definition plain : udpHandler := NewUDPHandler fake real None two_hours_four.
Definition doh : udpHandler := NewUDPHandler fake real (Some 7%nat) two_hours_four.

Definition far0 : Z -> Z := fun _ => 0.

(** Flow 1 is open on socket 100 since time 0. *)
Definition opened (h : udpHandler) : state :=
  snd (Connect 1%nat web (Bound 100%nat) 0 (initial h)).

(** With a transport set: the flow, and the flow after a query for the
    fake DNS address. *)
Definition doh_flow : state := opened doh.
Definition doh_flow_queried : state :=
  snd (ReceiveTo 1%nat query fake true doh_flow).

(** Without a transport: the flow after its query. *)
Definition queried : state := snd (ReceiveTo 1%nat query fake true (opened plain)).

(** The inputs of a one-shot exchange on the new flow, and the flow after
    them: the response has come and the read task has left its loop. *)
Definition exchange : list input :=
  [IReceiveTo 1%nat query fake true;
   IRead 0%nat 5 (Recv response [] real) true].
Definition answered : state :=
  default (initial plain) (run far0 exchange (opened plain)).

(** The flow after a datagram for a web server, and moves after that. *)
Definition web_flow : state := snd (ReceiveTo 1%nat query web true (opened plain)).
Definition moves : list input :=
  [IReceiveTo 1%nat query fake true;
   IRead 0%nat 5 (Recv response [] real) true;
   IRead 0%nat 6 RecvErr true;
   IDefer 0%nat 9].

End Sample.

(** ** The log of effects is write-only

    No operation reads the log: running it on [s] is running it on
    [kernel s] and putting the effects [s] had before it. *)

Definition prepend (tr : list effect) (s : state) : state :=
  mkState (hdl s) (heap s) (readers s) (dohs s) (tr ++ trace s).

Definition kernel (s : state) : state :=
  mkState (hdl s) (heap s) (readers s) (dohs s) [].

(** The state with the lines of the log taken out of its effects. *)
Definition erase_log (s : state) : state :=
  mkState (hdl s) (heap s) (readers s) (dohs s) (without_log (trace s)).

(** A tunnel for the examples: both handlers registered, transport 7 set. *)
Module SampleTunnel.

Definition resolve_udp (a : string) : UDPAddr + string :=
  if String.eqb a "10.111.222.3:53" then inl Sample.fake
  else if String.eqb a "127.0.0.1:5353" then inl Sample.real
  else inr "no such host"%string.

Definition resolve_tcp (a : string) : TCPAddr + string :=
  match resolve_udp a with
  | inl u => inl (mkTCPAddr (IP u) (Port u) (Zone u))
  | inr e => inr e
  end.

Definition bare : intratunnel := mkTunnel None None None.

Definition registered : intratunnel :=
  fst (registerConnectionHandlers resolve_udp resolve_tcp
         "10.111.222.3:53" "127.0.0.1:5353" "127.0.0.1:5353" bare).

Definition with_doh : intratunnel :=
  default bare (SetDNS (Some 7%nat) registered).

End SampleTunnel.

(** ** Reachable states *)

(** The states of a handler made by [NewUDPHandler] after some moves. *)
Definition reachable (far : Z -> Z) (s : state) : Prop :=
  ∃ fake real d tmo ins,
    run far ins (initial (NewUDPHandler fake real d tmo)) = Some s.

(** One read task per tracker, started with it: task [i] reads for tracker
    [i], and the task of every flow in the table has not finished. *)
Definition coherent (s : state) : Prop :=
  length (readers s) = length (heap s) ∧
  (∀ i rd, readers s !! i = Some rd → rtrk rd = i) ∧
  (∀ c l, udpConns (hdl s) !! c = Some l →
     ∃ st, readers s !! l = Some (mkReader c l st) ∧ st ≠ Finished).

(** The writes toward the virtual interface in a log of effects. *)
Definition tun_writes (tr : list effect) : list (handle * bytes * UDPAddr) :=
  omap (fun e => match e with TunWriteFrom c d a => Some (c, d, a) | _ => None end) tr.

(** The queries given to a DNS transport. *)
Definition queries (tr : list effect) : list (DNSTransport * bytes) :=
  omap (fun e => match e with Query d q => Some (d, q) | _ => None end) tr.

(** [ReceiveTo] of each payload of [qs], addressed to [addr]. *)
Definition sends (c : handle) (addr : UDPAddr) (qs : list bytes) : list input :=
  map (fun q => IReceiveTo c q addr true) qs.

(** The bytes of a list of payloads. *)
Definition total_len (qs : list bytes) : Z := foldr (fun q acc => len q + acc) 0 qs.

(** ** The construction of the tunnel *)

(** The calls [NewIntraTunnel] makes into the network stack and the
    tun2socks core. *)
Inductive stackcall :=
  | FdbasedNew (fd : Z)
  | StackNew
  | CreateNIC (nic : Z) (disabled : bool)
  | SetPromiscuousMode (nic : Z) (on : bool)
  | RegisterUDPConnHandler
  | SetTransportProtocolHandler
  | EnableNIC (nic : Z).

(** What the outside world answers to [NewIntraTunnel]: for each call that
    can fail, its error, if any. *)
Record stackenv := mkStackEnv {
  fdbased_err : option string;
  create_nic_err : option string;
  promiscuous_err : option string;
  enable_nic_err : option string
}.

(** What [NewIntraTunnel] returns: the tunnel, an error, or a nil-pointer
    panic. *)
Inductive built := Built (t : intratunnel) | Failed (err : string) | Panicked.

Section Construction.

Variable ResolveUDPAddr : string -> UDPAddr + string.
Variable ResolveTCPAddr : string -> TCPAddr + string.

(** The registrations [registerConnectionHandlers] has made when it
    returns [t]: each handler is registered right after it is set. *)
Definition registrations (t : intratunnel) : list stackcall :=
  (match udp t with Some _ => [RegisterUDPConnHandler] | None => [] end)
  ++ (match tcp t with Some _ => [SetTransportProtocolHandler] | None => [] end).

Definition nicID : Z := 1.

(** [NewIntraTunnel]: what it returns and the calls it has made, in
    order. *)
Definition NewIntraTunnel (env : stackenv) (fakedns udpdns tcpdns : string)
    (dohdns : option DNSTransport) (fd : Z) : built * list stackcall :=
  let calls := [FdbasedNew fd] in
  match fdbased_err env with
  | Some err => (Failed err, calls)
  | None =>
      let calls := (calls ++ [StackNew; CreateNIC nicID true])%list in
      match create_nic_err env with
      | Some err => (Failed err, calls)
      | None =>
          let calls := (calls ++ [SetPromiscuousMode nicID true])%list in
          match promiscuous_err env with
          | Some err => (Failed err, calls)
          | None =>
              let t := mkTunnel None None None in
              let (t, rerr) :=
                registerConnectionHandlers ResolveUDPAddr ResolveTCPAddr
                  fakedns udpdns tcpdns t in
              let calls := (calls ++ registrations t)%list in
              match rerr with
              | Some err => (Failed err, calls)
              | None =>
                  let set :=
                    match dohdns with
                    | Some _ => SetDNS dohdns t
                    | None => Some t
                    end in
                  match set with
                  | None => (Panicked, calls)
                  | Some t =>
                      let calls := (calls ++ [EnableNIC nicID])%list in
                      match enable_nic_err env with
                      | Some err => (Failed err, calls)
                      | None => (Built t, calls)
                      end
                  end
              end
          end
      end
  end.

End Construction.

(** * Proofs *)

Create HintDb machine.
#[local] Hint Unfold emit with_conns with_dns with_heap with_readers with_dohs
  store set_rstat prepend kernel udp_SetDNS : machine.

Ltac norm_trace :=
  autounfold with machine;
  cbn [hdl heap readers dohs trace fst snd fmap option_fmap option_map negb
       timeout udpConns fakedns truedns dns];
  rewrite ?app_nil_l, <- ?app_assoc.

Section Frame.

Variable far : Z -> Z.

Lemma Close_prepend c now s :
  Close far c now s = prepend (trace s) (Close far c now (kernel s)).
Proof.
  destruct s as [h hp rs ds tr]. unfold Close. norm_trace.
  destruct (udpConns h !! c) as [l|]; norm_trace; [|done].
  destruct (hp !! l) as [t|]; norm_trace; done.
Qed.

Lemma fetchUDPInput_iter_prepend r now rx ok s :
  fetchUDPInput_iter r now rx ok s
  = prepend (trace s) <$> fetchUDPInput_iter r now rx ok (kernel s).
Proof.
  destruct s as [h hp rs ds tr]. unfold fetchUDPInput_iter. norm_trace.
  destruct (rs !! r) as [[c l []]|]; try done.
  destruct (hp !! l) as [t|]; try done.
  destruct rx as [|data rest from]; norm_trace; [done|].
  destruct (classify_input h t data rest from) as [ua t'].
  destruct ok; norm_trace; [|done].
  destruct (complex t'); norm_trace; done.
Qed.

Lemma fetchUDPInput_defer_prepend r now s :
  fetchUDPInput_defer far r now s
  = prepend (trace s) <$> fetchUDPInput_defer far r now (kernel s).
Proof.
  unfold fetchUDPInput_defer.
  replace (readers (kernel s)) with (readers s) by done.
  destruct (readers s !! r) as [[c l []]|]; try done.
  rewrite (Close_prepend c now s). by destruct s.
Qed.

Lemma Connect_prepend c target bind now s :
  Connect c target bind now s
  = (fst (Connect c target bind now (kernel s)),
     prepend (trace s) (snd (Connect c target bind now (kernel s)))).
Proof.
  destruct s as [h hp rs ds tr]. unfold Connect.
  destruct bind; norm_trace; done.
Qed.

Lemma doDoh_prepend d answer s :
  doDoh d answer s = prepend (trace s) <$> doDoh d answer (kernel s).
Proof.
  destruct s as [h hp rs ds tr]. unfold doDoh. norm_trace.
  destruct (ds !! d) as [[c data []]|]; try done.
  destruct (dns h); try done.
  destruct answer; norm_trace; done.
Qed.

Lemma ReceiveTo_prepend c data addr ok s :
  ReceiveTo c data addr ok s
  = (fst (ReceiveTo c data addr ok (kernel s)),
     prepend (trace s) (snd (ReceiveTo c data addr ok (kernel s)))).
Proof.
  destruct s as [h hp rs ds tr]. unfold ReceiveTo. norm_trace.
  destruct (udpConns h !! c) as [l|]; norm_trace; [|by rewrite app_nil_r].
  destruct (hp !! l) as [t|]; norm_trace; [|by rewrite app_nil_r].
  destruct (sameAddr addr (fakedns h)); [destruct (dns h)|];
    destruct ok; norm_trace; done.
Qed.

Lemma step_prepend i s :
  step far i s = prepend (trace s) <$> step far i (kernel s).
Proof.
  destruct i; cbn [step].
  - by rewrite Connect_prepend.
  - by rewrite ReceiveTo_prepend.
  - by rewrite Close_prepend.
  - apply fetchUDPInput_iter_prepend.
  - apply fetchUDPInput_defer_prepend.
  - apply doDoh_prepend.
  - destruct s. norm_trace. by rewrite app_nil_r.
Qed.

Lemma kernel_prepend tr s : kernel (prepend tr s) = kernel s.
Proof. done. Qed.

Lemma prepend_prepend tr1 tr2 s :
  prepend tr1 (prepend tr2 s) = prepend (tr1 ++ tr2) s.
Proof. unfold prepend; cbn. by rewrite app_assoc. Qed.

Lemma run_prepend ins s :
  run far ins s = prepend (trace s) <$> run far ins (kernel s).
Proof.
  revert s. induction ins as [|i ins IH]; intros s; cbn [run].
  - destruct s. norm_trace. by rewrite app_nil_r.
  - rewrite step_prepend. destruct (step far i (kernel s)) as [s'|]; [|done].
    cbn. rewrite IH, (IH s'), kernel_prepend.
    destruct (run far ins (kernel s')) as [s''|]; [|done].
    cbn. by rewrite prepend_prepend.
Qed.

(** A run only adds effects. *)
Lemma run_trace_extends ins s s' :
  run far ins s = Some s' → ∃ ext, trace s' = (trace s ++ ext)%list.
Proof.
  rewrite run_prepend. destruct (run far ins (kernel s)) as [k|]; [|done].
  intros [= <-]. by exists (trace k).
Qed.

End Frame.

(** ** ReceiveTo on a handle without a tracker *)

(** C7: [ReceiveTo] on a handle that has no tracker in the flow table
    returns the lookup error ("connection does not exists") and has no side
    effect: the state after the call, with its table, trackers, counters,
    tasks and the log of socket effects, is the state before it. *)
Theorem ReceiveTo_unknown_handle c data addr wr_ok s :
  udpConns (hdl s) !! c = None →
  ReceiveTo c data addr wr_ok s = (Err (ErrNotExists c addr), s).
Proof. intros Hc. unfold ReceiveTo. by rewrite Hc. Qed.

Lemma ReceiveTo_unknown_handle_witness :
  ReceiveTo 1%nat Sample.query Sample.fake true (initial Sample.plain)
  = (Err (ErrNotExists 1%nat Sample.fake), initial Sample.plain).
Proof. apply ReceiveTo_unknown_handle. reflexivity. Defined.

(** ** A query for the fake DNS address while a transport is set *)

(** C1: evaluated on flow 1 of the sample handler with a DNS transport set,
    a 12-byte query addressed to the fake DNS address is handed to a
    [doDoh] task, and the call then goes on into the forwarding code: the
    upload counter goes from 0 to 12 and the query is written to the real
    socket, addressed to the fake DNS address. *)
Theorem ReceiveTo_doh_falls_through :
  ReceiveTo 1%nat Sample.query Sample.fake true Sample.doh_flow
  = (Nil, Sample.doh_flow_queried) ∧
  dns (hdl Sample.doh_flow) = Some 7%nat ∧
  sameAddr Sample.fake (fakedns (hdl Sample.doh_flow)) = true ∧
  dohs Sample.doh_flow_queried = [mkDoh 1%nat Sample.query false] ∧
  upload <$> tracker_of Sample.doh_flow 1%nat = Some 0 ∧
  upload <$> tracker_of Sample.doh_flow_queried 1%nat = Some 12 ∧
  sock_writes (trace Sample.doh_flow) = [] ∧
  sock_writes (trace Sample.doh_flow_queried)
  = [(100%nat, Sample.query, Sample.fake)].
Proof. vm_compute. repeat split; reflexivity. Qed.

(** ** SetDNS *)

(** C2, as stated, fails: on the sample tunnel with transport 7 set,
    [SetDNS] with an absent transport is not rejected; it clears the
    tunnel's binding and the transport of both handlers. *)
Lemma SetDNS_absent_not_rejected :
  ∃ t', SetDNS None SampleTunnel.with_doh = Some t' ∧
        GetDNS SampleTunnel.with_doh = Some 7%nat ∧
        GetDNS t' = None ∧
        (dns ∘ hdl <$> udp SampleTunnel.with_doh) = Some (Some 7%nat) ∧
        (dns ∘ hdl <$> udp t') = Some None ∧
        (tcp_dns <$> tcp SampleTunnel.with_doh) = Some (Some 7%nat) ∧
        (tcp_dns <$> tcp t') = Some None.
Proof. eexists. vm_compute. repeat split; reflexivity. Qed.

(** C2, amended: for every transport argument, absent or present, and every
    tunnel whose handlers are registered, [SetDNS] records the argument as
    the current binding and hands it to both the UDP and the TCP handler;
    nothing else of the tunnel or of the handlers changes. *)
Theorem SetDNS_propagates d t u h :
  udp t = Some u → tcp t = Some h →
  ∃ t', SetDNS d t = Some t' ∧
        GetDNS t' = d ∧
        udp t' = Some (udp_SetDNS d u) ∧ dns (hdl (udp_SetDNS d u)) = d ∧
        tcp t' = Some (tcp_SetDNS d h) ∧ tcp_dns (tcp_SetDNS d h) = d ∧
        udpConns (hdl (udp_SetDNS d u)) = udpConns (hdl u) ∧
        heap (udp_SetDNS d u) = heap u ∧
        trace (udp_SetDNS d u) = trace u ∧
        tcp_alwaysSplitHTTPS (tcp_SetDNS d h) = tcp_alwaysSplitHTTPS h.
Proof.
  intros Hu Hh. unfold SetDNS. cbn. rewrite Hu. cbn. rewrite Hh.
  eexists. split; [reflexivity|]. cbn. repeat split; reflexivity.
Qed.

Lemma SetDNS_propagates_witness :
  ∃ t', SetDNS None SampleTunnel.with_doh = Some t' ∧ GetDNS t' = None.
Proof.
  destruct (SetDNS_propagates None SampleTunnel.with_doh
              (default (initial Sample.plain) (udp SampleTunnel.with_doh))
              (default (NewTCPHandler (mkTCPAddr [] 0 EmptyString) (mkTCPAddr [] 0 EmptyString))
                 (tcp SampleTunnel.with_doh)))
    as (t' & H1 & H2 & _); [reflexivity | reflexivity |].
  exists t'. split; assumption.
Defined.

(** ** Connect and its target argument *)

Section Target.

Variable far : Z -> Z.

Lemma without_log_app tr1 tr2 :
  without_log (tr1 ++ tr2) = (without_log tr1 ++ without_log tr2)%list.
Proof. apply filter_app. Qed.

Lemma erase_log_prepend tr s :
  erase_log (prepend tr s)
  = prepend (without_log tr) (erase_log s).
Proof. unfold erase_log, prepend. cbn. by rewrite without_log_app. Qed.

Lemma erase_log_kernel s1 s2 :
  erase_log s1 = erase_log s2 →
  kernel s1 = kernel s2 ∧ without_log (trace s1) = without_log (trace s2).
Proof. destruct s1, s2. unfold erase_log, kernel. cbn. by intros [= -> -> -> -> ->]. Qed.

(** States that differ in the lines of their logs only stay so. *)
Lemma run_erase_log ins s1 s2 :
  erase_log s1 = erase_log s2 →
  erase_log <$> run far ins s1 = erase_log <$> run far ins s2.
Proof.
  intros [Hk Ht]%erase_log_kernel.
  rewrite (run_prepend far ins s1), (run_prepend far ins s2), Hk.
  destruct (run far ins (kernel s2)) as [k|]; [|done].
  cbn. by rewrite !erase_log_prepend, Ht.
Qed.

End Target.

(** C10: what [Connect] does is independent of its target argument.  For
    every two targets, [Connect] on the same handle in the same state
    returns the same result (success, or the error of the bind), asks for
    the same socket (network "udp", no address, port 0), and leaves the same
    table, trackers, tasks and effects; the target appears in the line
    written to the log and nowhere else.  Every later run of the handler
    is the same from both states, up to that line of the log: no
    forwarding depends on the target. *)
Theorem Connect_ignores_target far c target1 target2 bind now s :
  fst (Connect c target1 bind now s) = fst (Connect c target2 bind now s) ∧
  erase_log (snd (Connect c target1 bind now s))
  = erase_log (snd (Connect c target2 bind now s)) ∧
  tracker_of (snd (Connect c target1 bind now s)) c
  = tracker_of (snd (Connect c target2 bind now s)) c ∧
  tracker_of (snd (Connect c target1 bind now s)) c
  = match bind with
    | Bound pc => Some (makeTracker pc now)
    | NotBound _ => tracker_of s c
    end ∧
  (∃ ext, without_log (trace (snd (Connect c target1 bind now s)))
          = (without_log (trace s)
             ++ ListenUDP "udp" (mkUDPAddr [] 0 EmptyString) :: ext)%list) ∧
  (∀ ins, erase_log <$> run far ins (snd (Connect c target1 bind now s))
          = erase_log <$> run far ins (snd (Connect c target2 bind now s))).
Proof.
  assert (He : erase_log (snd (Connect c target1 bind now s))
               = erase_log (snd (Connect c target2 bind now s))).
  { unfold Connect, erase_log. destruct bind; norm_trace;
      rewrite !without_log_app; reflexivity. }
  split; [by destruct bind|]. split; [exact He|].
  split; [by destruct bind|]. split.
  { destruct bind as [pc|msg]; [|done].
    unfold tracker_of, Connect. norm_trace.
    rewrite lookup_insert_eq. cbn.
    by rewrite lookup_app_r, Nat.sub_diag. }
  split.
  { unfold Connect. destruct bind; norm_trace; rewrite !without_log_app;
      cbn; eexists; reflexivity. }
  intros ins. by apply run_erase_log.
Qed.

(** ** What the updates of a tracker keep *)

Lemma track_query_keeps data t :
  conn (track_query data t) = conn t ∧ start (track_query data t) = start t ∧
  upload (track_query data t) = upload t ∧
  download (track_query data t) = download t.
Proof.
  unfold track_query.
  repeat match goal with |- context [if ?b then _ else _] => destruct b end; done.
Qed.

Lemma track_query_complex data t :
  complex t = true → complex (track_query data t) = true.
Proof.
  unfold track_query.
  repeat match goal with |- context [if ?b then _ else _] => destruct b end; done.
Qed.

Lemma classify_input_keeps h t data rest from :
  let t' := snd (classify_input h t data rest from) in
  conn t' = conn t ∧ start t' = start t ∧ upload t' = upload t ∧
  download t' = Int.int64 (download t + len data) ∧
  queryid_of t' = queryid_of t.
Proof.
  unfold classify_input.
  repeat match goal with |- context [if ?b then _ else _] => destruct b end; done.
Qed.

Lemma classify_input_complex h t data rest from :
  complex t = true → complex (snd (classify_input h t data rest from)) = true.
Proof.
  unfold classify_input.
  repeat match goal with |- context [if ?b then _ else _] => destruct b end; done.
Qed.

(** ** Counters *)

(** C9: the byte counters record processed bytes, not delivered bytes.  In
    [ReceiveTo] on a flow with a tracker, when the write to the real socket
    fails the call returns the write error, the upload counter has grown
    by the payload length (in [int64]) all the same, and the tracker stays
    in the table.  In the read task, when the write toward the virtual
    interface fails, the download counter has grown by the received length
    all the same, and the task leaves its loop for the teardown. *)
Theorem counters_count_processed_bytes c l t r payload addr data rest from now s :
  udpConns (hdl s) !! c = Some l →
  heap s !! l = Some t →
  readers s !! r = Some (mkReader c l Looping) →
  (∃ s' t', ReceiveTo c payload addr false s = (Err ErrWrite, s') ∧
            tracker_of s' c = Some t' ∧
            upload t' = Int.int64 (upload t + len payload)) ∧
  (∃ s' t', fetchUDPInput_iter r now (Recv data rest from) false s = Some s' ∧
            heap s' !! l = Some t' ∧
            download t' = Int.int64 (download t + len data) ∧
            readers s' !! r = Some (mkReader c l Returning)).
Proof.
  intros Hc Hl Hr.
  assert (Hlt : (l < length (heap s))%nat) by (by eapply lookup_lt_Some).
  split.
  - unfold ReceiveTo, tracker_of. rewrite Hc, Hl.
    destruct (sameAddr addr (fakedns (hdl s))); [destruct (dns (hdl s))|];
      norm_trace;
      (eexists _, _; split; [reflexivity|]);
      norm_trace; rewrite Hc; cbn -[Int.int64];
      rewrite list_lookup_insert_eq by done;
      (split; [reflexivity|]); cbn -[Int.int64]; try done.
    by destruct (track_query_keeps payload t) as (_ & _ & -> & _).
  - unfold fetchUDPInput_iter. rewrite Hr, Hl.
    pose proof (classify_input_keeps (hdl s) t data rest from) as (_ & _ & _ & Hd & _).
    norm_trace.
    destruct (classify_input (hdl s) t data rest from) as [ua t']. norm_trace.
    eexists _, _. split; [reflexivity|]. norm_trace.
    rewrite list_lookup_insert_eq by done.
    rewrite list_lookup_alter_eq, Hr. done.
Qed.

Lemma counters_count_processed_bytes_witness :
  (∃ s' t', ReceiveTo 1%nat Sample.query Sample.web false (Sample.opened Sample.plain)
            = (Err ErrWrite, s') ∧
            tracker_of s' 1%nat = Some t' ∧
            upload t' = Int.int64 (0 + len Sample.query)) ∧
  (∃ s' t', fetchUDPInput_iter 0%nat 5 (Recv Sample.response [] Sample.real) false
              (Sample.opened Sample.plain) = Some s' ∧
            heap s' !! 0%nat = Some t' ∧
            download t' = Int.int64 (0 + len Sample.response) ∧
            readers s' !! 0%nat = Some (mkReader 1%nat 0%nat Returning)).
Proof.
  apply (counters_count_processed_bytes 1%nat 0%nat (makeTracker 100%nat 0) 0%nat);
    reflexivity.
Defined.

(** ** The query id *)

Lemma queryid_range data : 2 <= len data → 0 <= queryid data < 2 ^ 16.
Proof.
  intros H. unfold queryid.
  destruct (Z.ltb_spec (len data) 2); [lia|].
  rewrite Z.land_comm. change 65535 with (Z.ones 16).
  rewrite Z.land_ones by lia. apply Z.mod_pos_bound. lia.
Qed.

Lemma queryid_uint16 data : 2 <= len data → Int.uint16 (queryid data) = queryid data.
Proof.
  intros H. unfold Int.uint16. apply Z.mod_small. by apply queryid_range.
Qed.

(** The id is read from the first two bytes: what follows them in the
    buffer does not matter. *)
Lemma queryid_app data rest : 2 <= len data → queryid (data ++ rest) = queryid data.
Proof.
  unfold queryid, len. intros H.
  destruct data as [|b0 [|b1 data]]; cbn [length] in H; try lia.
  rewrite length_app. cbn [length app nth].
  destruct (Z.ltb_spec (Z.of_nat (S (S (length data)) + length rest)) 2); [lia|].
  destruct (Z.ltb_spec (Z.of_nat (S (S (length data)))) 2); [lia|]. done.
Qed.

(** ** The one-shot DNS response *)

(** C5: for a flow whose tracker is not marked complex, when the read task
    receives from the true DNS address a datagram of at least 2 bytes whose
    query id is the one the tracker recorded, the task (having set the
    deadline and received) writes the datagram toward the virtual
    interface with the fake DNS address as its source, counts its bytes as
    downloaded, leaves the tracker not complex, and leaves its loop at
    once: no further receive step is possible, the one move left to the
    task is the deferred teardown. *)
Theorem one_shot_response_ends_loop far r c l t data rest from now tun_ok s :
  readers s !! r = Some (mkReader c l Looping) →
  heap s !! l = Some t →
  complex t = false →
  sameAddr from (truedns (hdl s)) = true →
  2 <= len data →
  queryid data = queryid_of t →
  ∃ s',
    fetchUDPInput_iter r now (Recv data rest from) tun_ok s = Some s' ∧
    trace s' = (trace s
                ++ [SockSetDeadline (conn t) (now + timeout (hdl s));
                    SockReadFrom (conn t);
                    TunWriteFrom c data (fakedns (hdl s))]
                ++ (if tun_ok then [] else [Log Warnf_tun_write]))%list ∧
    heap s' !! l = Some (set_download (Int.int64 (download t + len data)) t) ∧
    readers s' !! r = Some (mkReader c l Returning) ∧
    (∀ now' rx' ok', fetchUDPInput_iter r now' rx' ok' s' = None) ∧
    (∀ now', fetchUDPInput_defer far r now' s'
             = Some (set_rstat r Finished (Close far c now' s'))).
Proof.
  intros Hr Hl Hcx Hfrom Hn Hid.
  assert (Hlt : (l < length (heap s))%nat) by (by eapply lookup_lt_Some).
  assert (Hcl : classify_input (hdl s) t data rest from
                = (fakedns (hdl s), set_download (Int.int64 (download t + len data)) t)).
  { unfold classify_input. rewrite Hfrom.
    destruct (Z.ltb_spec (len data) 2); [lia|].
    rewrite queryid_app, queryid_uint16, <- Hid, Z.eqb_refl by done. done. }
  assert (Hret : ∀ tr,
    readers (set_rstat r Returning
               (mkState (hdl s) (<[l:=set_download (Int.int64 (download t + len data)) t]> (heap s))
                  (readers s) (dohs s) tr)) !! r
    = Some (mkReader c l Returning)).
  { intros tr. norm_trace. by rewrite list_lookup_alter_eq, Hr. }
  unfold fetchUDPInput_iter at 1. rewrite Hr, Hl. norm_trace. rewrite Hcl.
  norm_trace. cbn [complex set_download]. rewrite Hcx. norm_trace.
  destruct tun_ok; norm_trace; (eexists; split; [reflexivity|]);
    norm_trace; rewrite ?app_nil_r;
    (split; [done|]);
    (split; [by rewrite list_lookup_insert_eq|]);
    (split; [by rewrite list_lookup_alter_eq, Hr|]);
    (split; [intros; unfold fetchUDPInput_iter; norm_trace;
               by rewrite list_lookup_alter_eq, Hr
            |intros; unfold fetchUDPInput_defer; norm_trace;
               by rewrite list_lookup_alter_eq, Hr]).
Qed.

Lemma one_shot_response_ends_loop_witness :
  ∃ s',
    fetchUDPInput_iter 0%nat 5 (Recv Sample.response [] Sample.real) true
      Sample.queried = Some s' ∧
    readers s' !! 0%nat = Some (mkReader 1%nat 0%nat Returning) ∧
    summaries (trace (Close Sample.far0 1%nat 1000000000 s'))
    = [mkSummary 12 28 1].
Proof.
  destruct (one_shot_response_ends_loop Sample.far0 0%nat 1%nat 0%nat
              (mkTracker 100%nat 0 12 0 false 4660)
              Sample.response [] Sample.real 5 true Sample.queried)
    as (s' & Hs & Htr & Hh & Hrd & _);
    [reflexivity | reflexivity | reflexivity | reflexivity
    | vm_compute; discriminate | reflexivity |].
  exists s'. split; [exact Hs|]. split; [exact Hrd|].
  vm_compute in Hs. injection Hs as <-. reflexivity.
Defined.

(** ** The idle timeout *)

Section Config.

Variable far : Z -> Z.




End Config.



(** ** Trackers only move forward *)

Lemma later_refl t : later t t.
Proof. by unfold later. Qed.

Lemma later_trans t1 t2 t3 : later t1 t2 → later t2 t3 → later t1 t3.
Proof. unfold later. intros (-> & -> & H1) (-> & -> & H2). auto. Qed.

Lemma grows_refl hp : grows hp hp.
Proof. intros l t H. exists t. split; [done | apply later_refl]. Qed.

Lemma grows_trans hp1 hp2 hp3 : grows hp1 hp2 → grows hp2 hp3 → grows hp1 hp3.
Proof.
  intros H1 H2 l t Hl.
  destruct (H1 l t Hl) as (t2 & Hl2 & Hlat2).
  destruct (H2 l t2 Hl2) as (t3 & Hl3 & Hlat3).
  exists t3. split; [done | by eapply later_trans].
Qed.

Lemma grows_alloc hp t : grows hp (hp ++ [t]).
Proof.
  intros l t0 Hl. exists t0. split; [|apply later_refl].
  rewrite lookup_app_l; [done | by eapply lookup_lt_Some].
Qed.

Lemma grows_store hp l0 t0 t' :
  hp !! l0 = Some t0 → later t0 t' → grows hp (<[l0 := t']> hp).
Proof.
  intros Hl0 Hlat l t Hl. destruct (decide (l = l0)) as [->|Hne].
  - exists t'. rewrite list_lookup_insert_eq by (by eapply lookup_lt_Some).
    split; [done|]. congruence.
  - exists t. rewrite list_lookup_insert_ne by done. split; [done | apply later_refl].
Qed.

Lemma later_track_query data t : later t (track_query data t).
Proof.
  destruct (track_query_keeps data t) as (? & ? & _).
  split; [done|]. split; [done|]. apply track_query_complex.
Qed.

Lemma later_classify_input h t data rest from :
  later t (snd (classify_input h t data rest from)).
Proof.
  destruct (classify_input_keeps h t data rest from) as (? & ? & _).
  split; [done|]. split; [done|]. apply classify_input_complex.
Qed.

Lemma later_set_upload u t : later t (set_upload u t).
Proof. by unfold later. Qed.

Lemma later_set_complex t : later t (set_complex true t).
Proof. by unfold later. Qed.

Section Forward.

Variable far : Z -> Z.

Lemma Close_heap c now s : heap (Close far c now s) = heap s.
Proof. unfold Close. by repeat case_match. Qed.

Lemma Close_readers c now s : readers (Close far c now s) = readers s.
Proof. unfold Close. by repeat case_match. Qed.

Lemma ReceiveTo_grows c data addr ok s :
  grows (heap s) (heap (snd (ReceiveTo c data addr ok s))).
Proof.
  unfold ReceiveTo.
  destruct (udpConns (hdl s) !! c) as [l|]; [|apply grows_refl].
  destruct (heap s !! l) as [t|] eqn:Hl; [|apply grows_refl].
  destruct (sameAddr addr (fakedns (hdl s))); [destruct (dns (hdl s))|];
    destruct ok; norm_trace; (eapply grows_store; [exact Hl|]);
    eauto using later_trans, later_set_upload, later_set_complex,
      later_track_query, later_refl.
Qed.

Lemma fetchUDPInput_iter_grows r now rx ok s s' :
  fetchUDPInput_iter r now rx ok s = Some s' → grows (heap s) (heap s').
Proof.
  unfold fetchUDPInput_iter.
  destruct (readers s !! r) as [[c l []]|]; try done.
  destruct (heap s !! l) as [t|] eqn:Hl; try done.
  destruct rx as [|data rest from].
  - intros [= <-]. apply grows_refl.
  - pose proof (later_classify_input (hdl s) t data rest from) as Hlat.
    norm_trace. revert Hlat.
    destruct (classify_input (hdl s) t data rest from) as [ua t'].
    cbn [snd]. intros Hlat.
    destruct ok; norm_trace; [destruct (complex t')|];
      intros [= <-]; norm_trace; by eapply grows_store.
Qed.

Lemma step_grows i s s' : step far i s = Some s' → grows (heap s) (heap s').
Proof.
  destruct i; cbn [step].
  - intros [= <-]. unfold Connect. destruct bind; norm_trace;
      [apply grows_alloc | apply grows_refl].
  - intros [= <-]. apply ReceiveTo_grows.
  - intros [= <-]. rewrite Close_heap. apply grows_refl.
  - apply fetchUDPInput_iter_grows.
  - unfold fetchUDPInput_defer.
    destruct (readers s !! r) as [[c l []]|]; try done.
    intros [= <-]. norm_trace. rewrite Close_heap. apply grows_refl.
  - unfold doDoh. destruct (dohs s !! d) as [[c data []]|]; try done.
    destruct (dns (hdl s)); try done.
    destruct answer; intros [= <-]; apply grows_refl.
  - intros [= <-]. apply grows_refl.
Qed.

Lemma run_grows ins s s' : run far ins s = Some s' → grows (heap s) (heap s').
Proof.
  revert s. induction ins as [|i ins IH]; intros s; cbn [run].
  - intros [= ->]. apply grows_refl.
  - destruct (step far i s) as [s1|] eqn:E; [|done].
    intros H. eapply grows_trans; [by eapply step_grows | by apply IH].
Qed.

End Forward.

(** C6: once the [complex] flag of a tracker is true it never goes back to
    false.  For every tracker on the heap and every run of the handler
    (calls of Connect, ReceiveTo and Close, receive steps and teardowns of
    the read tasks, DNS tasks, changes of transport), a tracker that is
    complex before the run is still there after it, and still complex. *)
Theorem complex_never_reverts far ins s s' l t :
  run far ins s = Some s' →
  heap s !! l = Some t →
  complex t = true →
  ∃ t', heap s' !! l = Some t' ∧ complex t' = true.
Proof.
  intros Hrun Hl Hc.
  destruct (run_grows far ins s s' Hrun l t Hl) as (t' & Hl' & _ & _ & Hmono).
  exists t'. auto.
Qed.

Lemma complex_never_reverts_witness :
  heap Sample.web_flow !! 0%nat = Some (mkTracker 100%nat 0 12 0 true 0) ∧
  ∃ s' t', run Sample.far0 Sample.moves Sample.web_flow = Some s' ∧
           heap s' !! 0%nat = Some t' ∧ complex t' = true.
Proof.
  split; [reflexivity|].
  assert (Hrun : run Sample.far0 Sample.moves Sample.web_flow
                 = Some (default Sample.web_flow
                           (run Sample.far0 Sample.moves Sample.web_flow)))
    by reflexivity.
  destruct (complex_never_reverts Sample.far0 Sample.moves Sample.web_flow _ 0%nat
              (mkTracker 100%nat 0 12 0 true 0) Hrun eq_refl eq_refl)
    as (t' & Hl & Hc).
  eauto.
Defined.

(** ** Close *)

Section Closing.

Variable far : Z -> Z.

(** What [Close] does to a flow with a tracker. *)
Lemma Close_tracked c now s l t :
  udpConns (hdl s) !! c = Some l → heap s !! l = Some t →
  Close far c now s
  = with_conns (delete c)
      (emit (OnUDPSocketClosed
               (mkSummary (upload t) (download t)
                  (time.SecondsInt32 far (time.Since (start t) now))))
         (emit (SockClose (conn t)) (emit (TunClose c) s))).
Proof. intros Hc Hl. unfold Close. norm_trace. rewrite Hc, Hl. by norm_trace. Qed.

(** What [Close] does to a handle without a tracker. *)
Lemma Close_untracked c now s :
  udpConns (hdl s) !! c = None → Close far c now s = emit (TunClose c) s.
Proof. intros Hc. unfold Close. norm_trace. by rewrite Hc. Qed.

Lemma Close_set_rstat c now r st s :
  Close far c now (set_rstat r st s) = set_rstat r st (Close far c now s).
Proof.
  unfold Close. norm_trace.
  destruct (udpConns (hdl s) !! c) as [l|]; [|done].
  destruct (heap s !! l) as [t|]; done.
Qed.

Lemma Close_twice c now1 now2 s l t :
  udpConns (hdl s) !! c = Some l → heap s !! l = Some t →
  Close far c now2 (Close far c now1 s)
  = emit (TunClose c) (Close far c now1 s) ∧
  trace (Close far c now2 (Close far c now1 s))
  = (trace s ++ [TunClose c; SockClose (conn t);
                 OnUDPSocketClosed
                   (mkSummary (upload t) (download t)
                      (time.SecondsInt32 far (time.Since (start t) now1)));
                 TunClose c])%list.
Proof.
  intros Hc Hl.
  assert (Hgone : udpConns (hdl (Close far c now1 s)) !! c = None).
  { rewrite (Close_tracked c now1 s l t Hc Hl). norm_trace. apply lookup_delete_eq. }
  rewrite (Close_untracked c now2 _ Hgone). split; [done|].
  rewrite (Close_tracked c now1 s l t Hc Hl). norm_trace. done.
Qed.

End Closing.

(** C4: [Close] is idempotent.  For a handle with a tracker, two calls of
    [Close] in a row, both external, or one of them the teardown of the
    flow's read task (before or after the external one), have these
    effects and no other: the virtual-interface close, the close of the
    real socket, the summary of the flow, and the virtual-interface close
    again.  The summary is delivered once and the real socket closed
    once.  For a handle without a tracker, [Close] calls the
    virtual-interface close and changes nothing else: no summary. *)
Theorem Close_idempotent far c now1 now2 s :
  (∀ l t, udpConns (hdl s) !! c = Some l → heap s !! l = Some t →
     let sm := mkSummary (upload t) (download t)
                 (time.SecondsInt32 far (time.Since (start t) now1)) in
     let effects := [TunClose c; SockClose (conn t); OnUDPSocketClosed sm;
                     TunClose c] in
     trace (Close far c now2 (Close far c now1 s)) = (trace s ++ effects)%list ∧
     summaries effects = [sm] ∧ sock_closes effects = [conn t] ∧
     tracker_of (Close far c now2 (Close far c now1 s)) c = None ∧
     ∀ r l', readers s !! r = Some (mkReader c l' Returning) →
       (∃ s1, fetchUDPInput_defer far r now1 s = Some s1 ∧
              trace (Close far c now2 s1) = (trace s ++ effects)%list) ∧
       (∃ s2, fetchUDPInput_defer far r now2 (Close far c now1 s) = Some s2 ∧
              trace s2 = (trace s ++ effects)%list)) ∧
  (udpConns (hdl s) !! c = None →
     Close far c now1 s = emit (TunClose c) s ∧
     summaries (trace (Close far c now1 s)) = summaries (trace s) ∧
     sock_closes (trace (Close far c now1 s)) = sock_closes (trace s) ∧
     tun_closes (trace (Close far c now1 s)) = (tun_closes (trace s) ++ [c])%list).
Proof.
  split.
  - intros l t Hc Hl sm effects.
    destruct (Close_twice far c now1 now2 s l t Hc Hl) as [Heq Htr].
    split; [exact Htr|]. split; [done|]. split; [done|]. split.
    { unfold tracker_of. rewrite Heq, (Close_tracked far c now1 s l t Hc Hl).
      norm_trace. by rewrite lookup_delete_eq. }
    intros r l' Hr. split.
    + unfold fetchUDPInput_defer. rewrite Hr. eexists. split; [reflexivity|].
      rewrite Close_set_rstat. exact Htr.
    + unfold fetchUDPInput_defer. rewrite Close_readers, Hr.
      eexists. split; [reflexivity|]. exact Htr.
  - intros Hc. rewrite (Close_untracked far c now1 s Hc). norm_trace.
    unfold summaries, sock_closes, tun_closes. rewrite !omap_app. cbn.
    by rewrite !app_nil_r.
Qed.

Lemma Close_idempotent_witness :
  trace (Close Sample.far0 1%nat 3000000000
           (Close Sample.far0 1%nat 2000000000 Sample.answered))
  = (trace Sample.answered
     ++ [TunClose 1%nat; SockClose 100%nat;
         OnUDPSocketClosed (mkSummary 12 28 2); TunClose 1%nat])%list ∧
  (∃ s1, fetchUDPInput_defer Sample.far0 0%nat 2000000000 Sample.answered = Some s1 ∧
         summaries (trace (Close Sample.far0 1%nat 3000000000 s1))
         = [mkSummary 12 28 2]) ∧
  summaries (trace (Close Sample.far0 2%nat 2000000000 Sample.answered)) = [].
Proof.
  destruct (Close_idempotent Sample.far0 1%nat 2000000000 3000000000 Sample.answered)
    as [Htracked _].
  destruct (Htracked 0%nat (mkTracker 100%nat 0 12 28 false 4660) eq_refl eq_refl)
    as (Htr & _ & _ & _ & Htask).
  destruct (Htask 0%nat 0%nat eq_refl) as [(s1 & Hs1 & Htr1) _].
  destruct (Close_idempotent Sample.far0 2%nat 2000000000 3000000000 Sample.answered)
    as [_ Hnone].
  destruct (Hnone eq_refl) as (_ & Hsum & _).
  split; [exact Htr|]. split.
  - exists s1. split; [exact Hs1|]. rewrite Htr1. reflexivity.
  - rewrite Hsum. reflexivity.
Defined.

(** ** The summary of a flow *)


Lemma int64_small z : Int.in_int64 z → Int.int64 z = z.
Proof.
  unfold Int.in_int64, Int.min_int64, Int.max_int64, Int.int64, Int.wrap_signed.
  intros H. rewrite Z.mod_small; lia.
Qed.



Section Flow.

Variable far : Z -> Z.




End Flow.







(** ** Well-formed states *)

Section WellFormed.

Variable far : Z -> Z.

Lemma grows_is_Some hp hp' l : grows hp hp' → is_Some (hp !! l) → is_Some (hp' !! l).
Proof. intros Hg [t Hl]. destruct (Hg l t Hl) as (t' & Hl' & _). by exists t'. Qed.

Lemma wf_initial fake real d tmo : wf (initial (NewUDPHandler fake real d tmo)).
Proof. split; intros ? ?; cbn; by rewrite ?lookup_empty, ?lookup_nil. Qed.

Lemma wf_with_trace s s' :
  udpConns (hdl s') = udpConns (hdl s) → heap s' = heap s → readers s' = readers s →
  wf s → wf s'.
Proof. unfold wf. intros -> -> ->. done. Qed.

Lemma wf_Close c now s : wf s → wf (Close far c now s).
Proof.
  intros [Ht Hr]. split.
  - intros c' l. rewrite Close_heap. intros Hl. apply (Ht c'). revert Hl.
    unfold Close. norm_trace.
    destruct (udpConns (hdl s) !! c) as [l0|]; [|done].
    destruct (heap s !! l0); [|done].
    norm_trace. by intros [_ Hl]%lookup_delete_Some.
  - intros r rd. rewrite Close_heap, Close_readers. apply Hr.
Qed.

Lemma wf_set_rstat r st s : wf s → wf (set_rstat r st s).
Proof.
  intros [Ht Hr]. split; [exact Ht|].
  intros r' rd. norm_trace. intros H.
  destruct (decide (r = r')) as [<-|Hne].
  - rewrite list_lookup_alter_eq in H.
    destruct (readers s !! r) as [rd0|] eqn:E; [|done].
    injection H as <-. cbn. by apply (Hr r).
  - rewrite list_lookup_alter_ne in H by done. by apply (Hr r').
Qed.

(** The read tasks of [rs'] are those of [rs], on the same trackers. *)
Lemma same_tasks_alter r st (rs : list reader) :
  ∀ r' rd, alter (λ rd, mkReader (rconn rd) (rtrk rd) st) r rs !! r' = Some rd →
           ∃ rd0, rs !! r' = Some rd0 ∧ rtrk rd0 = rtrk rd.
Proof.
  intros r' rd H. destruct (decide (r = r')) as [<-|Hne].
  - rewrite list_lookup_alter_eq in H.
    destruct (rs !! r) as [rd0|]; [|done]. injection H as <-. by exists rd0.
  - rewrite list_lookup_alter_ne in H by done. by exists rd.
Qed.

Lemma wf_grows s s' :
  udpConns (hdl s') = udpConns (hdl s) →
  (∀ r rd, readers s' !! r = Some rd →
           ∃ rd0, readers s !! r = Some rd0 ∧ rtrk rd0 = rtrk rd) →
  grows (heap s) (heap s') → wf s → wf s'.
Proof.
  intros Hc Hr Hg [Ht Hrd]. split.
  - intros c l. rewrite Hc. intros H. eapply grows_is_Some; eauto.
  - intros r rd (rd0 & H & <-)%Hr. eapply grows_is_Some; eauto.
Qed.

Lemma fetchUDPInput_iter_frame r now rx ok s s' :
  fetchUDPInput_iter r now rx ok s = Some s' →
  udpConns (hdl s') = udpConns (hdl s) ∧
  ∀ r' rd, readers s' !! r' = Some rd →
           ∃ rd0, readers s !! r' = Some rd0 ∧ rtrk rd0 = rtrk rd.
Proof.
  unfold fetchUDPInput_iter.
  destruct (readers s !! r) as [[c l []]|]; try done.
  destruct (heap s !! l) as [t|]; try done.
  destruct rx as [|data rest from].
  - intros [= <-]. norm_trace. split; [done | apply same_tasks_alter].
  - norm_trace. destruct (classify_input (hdl s) t data rest from) as [ua t'].
    destruct ok; norm_trace; [destruct (complex t')|]; intros [= <-];
      norm_trace; (split; [done|]); try apply same_tasks_alter; eauto.
Qed.

Lemma ReceiveTo_frame c data addr ok s :
  udpConns (hdl (snd (ReceiveTo c data addr ok s))) = udpConns (hdl s) ∧
  readers (snd (ReceiveTo c data addr ok s)) = readers s.
Proof.
  unfold ReceiveTo. repeat case_match; simplify_eq; norm_trace; done.
Qed.

Lemma wf_step i s s' : step far i s = Some s' → wf s → wf s'.
Proof.
  destruct i; cbn [step].
  - intros [= <-] [Ht Hr]. unfold Connect. destruct bind as [pc|msg].
    + split; norm_trace.
      * intros c' l. destruct (decide (c' = c)) as [->|Hne].
        -- rewrite lookup_insert_eq. intros [= <-].
           rewrite lookup_app_r, Nat.sub_diag by done. by eexists.
        -- rewrite lookup_insert_ne by done. intros H%Ht.
           eapply grows_is_Some; [apply grows_alloc | done].
      * intros r rd [H|[_ H]]%lookup_app_Some.
        -- eapply grows_is_Some; [apply grows_alloc | by eapply Hr].
        -- apply list_lookup_singleton_Some in H as [_ <-]. cbn.
           rewrite lookup_app_r, Nat.sub_diag by done. by eexists.
    + by split.
  - intros [= <-].
    destruct (ReceiveTo_frame c data addr wr_ok s) as [Hc Hr].
    apply wf_grows; [done | rewrite Hr; eauto | apply ReceiveTo_grows].
  - intros [= <-]. apply wf_Close.
  - intros H. destruct (fetchUDPInput_iter_frame _ _ _ _ _ _ H) as [Hc Hr].
    apply wf_grows; [done | done | by eapply fetchUDPInput_iter_grows].
  - unfold fetchUDPInput_defer. repeat case_match; try done.
    intros [= <-] Hwf. by apply wf_set_rstat, wf_Close.
  - unfold doDoh. repeat case_match; try done;
      intros [= <-]; by apply wf_with_trace.
  - intros [= <-]. by apply wf_with_trace.
Qed.

End WellFormed.

Section Reachable.

Variable far : Z -> Z.

Lemma wf_run ins s s' : run far ins s = Some s' → wf s → wf s'.
Proof.
  revert s. induction ins as [|i ins IH]; intros s; cbn [run].
  - by intros [= ->].
  - destruct (step far i s) as [s1|] eqn:E; [|done].
    intros Hrun Hwf. eapply IH; [done | by eapply wf_step].
Qed.

(** In a state reached from a new handler no call panics. *)
Lemma ReceiveTo_no_panic fake real d tmo ins s c data addr ok :
  run far ins (initial (NewUDPHandler fake real d tmo)) = Some s →
  fst (ReceiveTo c data addr ok s) ≠ Panic.
Proof.
  intros Hrun. pose proof (wf_run _ _ _ Hrun (wf_initial _ _ _ _)) as [Ht _].
  unfold ReceiveTo. destruct (udpConns (hdl s) !! c) as [l|] eqn:Hc; [|done].
  destruct (Ht c l Hc) as [t ->].
  destruct (sameAddr addr (fakedns (hdl s))); [destruct (dns (hdl s))|];
    by destruct ok.
Qed.

End Reachable.

(** * Further properties of the code *)

(** ** The query id is the big-endian value of the first two bytes *)

Lemma byte_val_range b : 0 <= byte_val b < 256.
Proof.
  unfold byte_val. pose proof (Byte.to_N_bounded b) as H.
  split; [apply N2Z.is_nonneg | lia].
Qed.

Lemma int32_small z : - 2 ^ 31 <= z < 2 ^ 31 → Int.int32 z = z.
Proof.
  intros H. unfold Int.int32, Int.wrap_signed. rewrite Z.mod_small; lia.
Qed.

Lemma land_shifted_byte a b : 0 <= b < 256 → Z.land (a * 2 ^ 8) b = 0.
Proof.
  intros Hb. apply Z.bits_inj'. intros n Hn.
  rewrite Z.land_spec, Z.bits_0.
  destruct (Z.lt_ge_cases n 8) as [Hlt|Hge].
  - rewrite Z.mul_pow2_bits_low by lia. done.
  - destruct (decide (b = 0)) as [->|Hb0].
    + rewrite Z.bits_0. apply andb_false_r.
    + rewrite (Z.bits_above_log2 b n); [apply andb_false_r | lia |].
      apply Z.log2_lt_pow2; [lia|].
      assert (2 ^ 8 <= 2 ^ n) by (apply Z.pow_le_mono_r; lia). lia.
Qed.

Lemma queryid_two b0 b1 rest :
  queryid (b0 :: b1 :: rest) = 256 * byte_val b0 + byte_val b1.
Proof.
  pose proof (byte_val_range b0) as H0. pose proof (byte_val_range b1) as H1.
  unfold queryid, len. cbn [length nth].
  destruct (Z.ltb_spec (Z.of_nat (S (S (length rest)))) 2); [lia|].
  rewrite (int32_small (byte_val b0)), (int32_small (byte_val b1)) by lia.
  rewrite Z.shiftl_mul_pow2 by lia.
  rewrite int32_small by lia.
  rewrite <- Z.lxor_lor, <- Z.add_nocarry_lxor by (by apply land_shifted_byte).
  rewrite Z.land_comm. change 65535 with (Z.ones 16).
  rewrite Z.land_ones by lia. rewrite Z.mod_small; lia.
Qed.

(** X1: [queryid] reads the first two bytes of the payload as a 16-bit
    big-endian number, whatever follows them; a payload shorter than two
    bytes gives -1, and only such a payload does: an id read from a
    payload lies between 0 and 65535. *)
Theorem queryid_big_endian data :
  queryid data
  = match data with
    | b0 :: b1 :: _ => 256 * byte_val b0 + byte_val b1
    | _ => -1
    end ∧
  (queryid data = -1 ↔ len data < 2) ∧
  (2 <= len data ↔ 0 <= queryid data < 65536).
Proof.
  destruct data as [|b0 [|b1 rest]].
  - change (queryid []) with (-1). change (len []) with 0.
    repeat split; intros; lia.
  - change (queryid [b0]) with (-1). change (len [b0]) with 1.
    repeat split; intros; lia.
  - rewrite queryid_two.
    pose proof (byte_val_range b0). pose proof (byte_val_range b1).
    unfold len. cbn [length]. repeat split; intros; lia.
Qed.

(** ** Where ReceiveTo forwards *)

(** X2: on a flow with a tracker, when no DNS transport takes the datagram
    (none is set, or the destination is not the fake DNS address),
    [ReceiveTo] writes the payload, unchanged, to the flow's real socket
    exactly once: to the true DNS address when the destination is the fake
    one, to the destination itself otherwise.  It returns nil when the
    write succeeds and the write error when it fails, and in both cases
    leaves the flow in the table and starts no DNS task. *)
Theorem ReceiveTo_forwards c l t data addr ok s :
  udpConns (hdl s) !! c = Some l →
  heap s !! l = Some t →
  (sameAddr addr (fakedns (hdl s)) = true → dns (hdl s) = None) →
  ∃ s',
    ReceiveTo c data addr ok s = (if ok then Nil else Err ErrWrite, s') ∧
    trace s'
    = (trace s
       ++ SockWriteTo (conn t) data
            (if sameAddr addr (fakedns (hdl s)) then truedns (hdl s) else addr)
          :: (if ok then [] else [Log Warnf_forward]))%list ∧
    udpConns (hdl s') = udpConns (hdl s) ∧
    dohs s' = dohs s ∧ readers s' = readers s.
Proof.
  intros Hc Hl Hdns. unfold ReceiveTo. rewrite Hc, Hl.
  destruct (track_query_keeps data t) as (Hq & _).
  destruct (sameAddr addr (fakedns (hdl s))).
  - rewrite (Hdns eq_refl).
    destruct ok; norm_trace; eexists; (split; [reflexivity|]);
      norm_trace; cbn [conn set_upload]; rewrite Hq; done.
  - destruct ok; norm_trace; eexists; (split; [reflexivity|]);
      norm_trace; done.
Qed.

Lemma ReceiveTo_forwards_witness :
  ∃ s', ReceiveTo 1%nat Sample.query Sample.fake true (Sample.opened Sample.plain)
        = (Nil, s') ∧
        sock_writes (trace s') = [(100%nat, Sample.query, Sample.real)].
Proof.
  destruct (ReceiveTo_forwards 1%nat 0%nat (makeTracker 100%nat 0) Sample.query
              Sample.fake true (Sample.opened Sample.plain))
    as (s' & Hr & Htr & _); [reflexivity | reflexivity | reflexivity |].
  exists s'. split; [exact Hr|]. rewrite Htr. reflexivity.
Defined.

(** ** A flow of DNS queries *)

Lemma bytes_eqb_refl a : bytes_eqb a a = true.
Proof.
  induction a as [|x a IH]; [done|]. cbn. rewrite IH, andb_true_r.
  by apply Byte.byte_dec_lb.
Qed.

Lemma sameAddr_refl a : sameAddr a a = true.
Proof.
  unfold sameAddr, IP_Equal. by rewrite Nat.eqb_refl, bytes_eqb_refl, Z.eqb_refl.
Qed.

(** A query for the fake DNS address on a flow without transport. *)
Lemma ReceiveTo_query c l t q ok s :
  udpConns (hdl s) !! c = Some l → heap s !! l = Some t → dns (hdl s) = None →
  let s' := snd (ReceiveTo c q (fakedns (hdl s)) ok s) in
  hdl s' = hdl s ∧
  heap s' = <[l := set_upload (Int.int64 (upload t + len q)) (track_query q t)]> (heap s).
Proof.
  intros Hc Hl Hd. unfold ReceiveTo. rewrite Hc, Hl, sameAddr_refl, Hd.
  destruct (track_query_keeps q t) as (_ & _ & -> & _).
  destruct ok; norm_trace; by destruct (hdl s).
Qed.

Lemma queries_run far c l qs : ∀ s t u id b,
  udpConns (hdl s) !! c = Some l → heap s !! l = Some t → dns (hdl s) = None →
  upload t = u → 0 < u → u + total_len qs <= Int.max_int64 →
  queryid_of t = id → complex t = b →
  Forall (λ q, 2 <= len q) qs →
  ∃ s' t',
    run far (sends c (fakedns (hdl s)) qs) s = Some s' ∧
    hdl s' = hdl s ∧ heap s' !! l = Some t' ∧
    upload t' = u + total_len qs ∧ queryid_of t' = id ∧
    complex t' = b || negb (forallb (λ q, queryid q =? id) qs).
Proof.
  induction qs as [|q qs IH]; intros s t u id b Hc Hl Hd Hu Hpos Hsum Hid Hb Hall.
  - exists s, t. cbn. rewrite Z.add_0_r, orb_false_r. done.
  - apply Forall_cons in Hall as [Hq Hall].
    cbn [total_len foldr] in Hsum. fold (total_len qs) in Hsum.
    assert (Hqs : 0 <= total_len qs).
    { clear. induction qs as [|q' qs IH]; cbn; [done|].
      fold (total_len qs). unfold len. lia. }
    destruct (ReceiveTo_query c l t q true s Hc Hl Hd) as [Hh Hhp].
    set (s1 := snd (ReceiveTo c q (fakedns (hdl s)) true s)) in *.
    set (t1 := set_upload (Int.int64 (upload t + len q)) (track_query q t)) in *.
    assert (Hlt : (l < length (heap s))%nat) by (by eapply lookup_lt_Some).
    assert (Hl1 : heap s1 !! l = Some t1)
      by (rewrite Hhp; by apply list_lookup_insert_eq).
    assert (Hu1 : upload t1 = u + len q).
    { unfold t1. cbn [upload set_upload]. rewrite Hu. apply int64_small.
      unfold Int.in_int64, Int.min_int64. lia. }
    pose proof (queryid_range q Hq) as Hr.
    assert (Htq : track_query q t
                  = if queryid q =? id then t else set_complex true t).
    { unfold track_query.
      destruct (Z.ltb_spec (queryid q) 0); [lia|].
      destruct (Z.eqb_spec (upload t) 0); [lia|].
      rewrite queryid_uint16, Hid by done.
      rewrite (Z.eqb_sym id). by destruct (queryid q =? id). }
    assert (Hid1 : queryid_of t1 = id).
    { unfold t1. rewrite Htq. by destruct (queryid q =? id). }
    assert (Hb1 : complex t1 = b || negb (queryid q =? id)).
    { unfold t1. rewrite Htq, <- Hb.
      destruct (queryid q =? id); cbn; by destruct (complex t). }
    destruct (IH s1 t1 (u + len q) id (b || negb (queryid q =? id)))
      as (s' & t' & Hrun & Hh' & Hl' & Hu' & Hid' & Hb'); try done.
    + by rewrite Hh.
    + by rewrite Hh.
    + lia.
    + lia.
    + exists s', t'. cbn [sends map run step]. fold (sends c (fakedns (hdl s)) qs).
      fold s1. rewrite <- Hh at 1. rewrite Hrun, Hh', Hh.
      split; [done|]. split; [done|]. split; [done|].
      split; [cbn [total_len foldr]; fold (total_len qs); lia|].
      split; [done|]. rewrite Hb'. cbn [forallb].
      destruct b, (queryid q =? id); done.
Qed.

(** X3: a new flow without DNS transport that sends only DNS queries, all
    to the fake DNS address, records the id of its first query, and stays
    simple (not complex) exactly when every later query carries that same
    id: the first query with another id marks it complex.  (Queries of at
    least two bytes; their total length within [int64].) *)
Theorem queries_keep_flow_simple_iff_same_id far c l t q qs s :
  udpConns (hdl s) !! c = Some l →
  heap s !! l = Some t →
  upload t = 0 → complex t = false →
  dns (hdl s) = None →
  Forall (λ q, 2 <= len q) (q :: qs) →
  total_len (q :: qs) <= Int.max_int64 →
  ∃ s' t',
    run far (sends c (fakedns (hdl s)) (q :: qs)) s = Some s' ∧
    tracker_of s' c = Some t' ∧
    queryid_of t' = queryid q ∧
    upload t' = total_len (q :: qs) ∧
    complex t' = negb (forallb (λ q', queryid q' =? queryid q) qs).
Proof.
  intros Hc Hl Hu Hb Hd Hall Hsum.
  apply Forall_cons in Hall as [Hq Hall].
  cbn [total_len foldr] in Hsum. fold (total_len qs) in Hsum.
  assert (Hqs : 0 <= total_len qs).
  { clear. induction qs as [|q' qs IH]; cbn; [done|].
    fold (total_len qs). unfold len. lia. }
  destruct (ReceiveTo_query c l t q true s Hc Hl Hd) as [Hh Hhp].
  set (s1 := snd (ReceiveTo c q (fakedns (hdl s)) true s)) in *.
  set (t1 := set_upload (Int.int64 (upload t + len q)) (track_query q t)) in *.
  assert (Hlt : (l < length (heap s))%nat) by (by eapply lookup_lt_Some).
  assert (Hl1 : heap s1 !! l = Some t1)
    by (rewrite Hhp; by apply list_lookup_insert_eq).
  pose proof (queryid_range q Hq) as Hr.
  assert (Htq : track_query q t = set_queryid (queryid q) t).
  { unfold track_query. destruct (Z.ltb_spec (queryid q) 0); [lia|].
    rewrite Hu. cbn. by rewrite queryid_uint16. }
  assert (Hu1 : upload t1 = len q).
  { unfold t1. rewrite Htq. cbn [upload set_upload set_queryid]. rewrite Hu.
    apply int64_small. unfold Int.in_int64, Int.min_int64. lia. }
  destruct (queries_run far c l qs s1 t1 (len q) (queryid q) false)
    as (s' & t' & Hrun & Hh' & Hl' & Hu' & Hid' & Hb'); try done.
  - by rewrite Hh.
  - by rewrite Hh.
  - lia.
  - unfold t1. by rewrite Htq.
  - unfold t1. by rewrite Htq.
  - exists s', t'. cbn [sends map run step]. fold (sends c (fakedns (hdl s)) qs).
    fold s1. rewrite <- Hh at 1. rewrite Hrun.
    split; [done|]. unfold tracker_of. rewrite Hh', Hh, Hc. cbn.
    split; [done|]. split; [done|].
    split; [cbn [total_len foldr]; fold (total_len qs); lia|]. done.
Qed.

Lemma queries_keep_flow_simple_iff_same_id_witness :
  ∃ s' t',
    run Sample.far0
      (sends 1%nat Sample.fake [Sample.query; Sample.query; Sample.response])
      (Sample.opened Sample.plain) = Some s' ∧
    tracker_of s' 1%nat = Some t' ∧ queryid_of t' = 4660 ∧
    upload t' = 52 ∧ complex t' = false.
Proof.
  destruct (queries_keep_flow_simple_iff_same_id Sample.far0 1%nat 0%nat
              (makeTracker 100%nat 0) Sample.query
              [Sample.query; Sample.response] (Sample.opened Sample.plain))
    as (s' & t' & Hrun & Ht & Hid & Hu & Hc);
    [reflexivity | reflexivity | reflexivity | reflexivity | reflexivity
    | repeat constructor; vm_compute; discriminate
    | vm_compute; discriminate |].
  exists s', t'. split; [exact Hrun|]. split; [exact Ht|].
  split; [exact Hid|]. split; [exact Hu|]. exact Hc.
Defined.
